(** * The mock request-interception layer of bizops-management

    The test runtime of the repository is wired by [src/tests/setup.ts]:
    {v
    beforeAll(() => mswServer.listen());
    afterEach(() => mswServer.resetHandlers());
    afterAll(() => mswServer.close());
    v}
    and by the [test] block of [vite.config.ts], which names that file in
    [setupFiles].  [mswServer] is [setupServer(...handlers)] of Mock Service
    Worker; its handler controller is modelled below as the library
    implements it: [use] prepends runtime handlers, [resetHandlers()] goes
    back to the initial list, and a request is answered by the first
    handler of the current list that matches it. *)

From Stdlib Require Import List String Ascii Bool Arith Lia.
Import ListNotations.

(** ** Requests, responses, handlers *)

Inductive method := GET | POST | PUT | PATCH | DELETE.

Scheme Equality for method.

(** A URL pattern, segment by segment; [Param] is a [:name] segment, which
    matches one non-empty path segment. The common [API_URL] prefix is left
    out. *)
Inductive segment := Lit (s : string) | Param.

Definition pattern := list segment.

Definition segment_eq_dec (a b : segment) : {a = b} + {a <> b}.
Proof. decide equality; apply string_dec. Defined.

Fixpoint path_matches (p : pattern) (u : list string) : bool :=
  match p, u with
  | [], [] => true
  | Lit s :: p', x :: u' => String.eqb s x && path_matches p' u'
  | Param :: p', x :: u' => negb (String.eqb x EmptyString) && path_matches p' u'
  | _, _ => false
  end.

(** [http.get] registers for one method, [http.all] for every method. *)
Inductive hmethod := Only (m : method) | All.

Definition hmethod_eq_dec (a b : hmethod) : {a = b} + {a <> b}.
Proof. decide equality; apply method_eq_dec. Defined.

Definition method_matches (hm : hmethod) (m : method) : bool :=
  match hm with
  | All => true
  | Only m' => method_beq m' m
  end.

Local Set Warnings "-register-all".

Inductive json :=
| JNull
| JBool (b : bool)
| JNum (n : nat)
| JStr (s : string)
| JArr (l : list json)
| JObj (l : list (string * json)).

(** [req_time] is the (simulated) instant the request is issued. *)
Record request := {
  req_method : method;
  req_path : list string;
  req_time : nat
}.

(** What a resolver produces: a response with a status, a body ([None] for
    an empty body) and the simulated delay before it resolves, or a
    network-level failure ([HttpResponse.error()]). *)
Inductive outcome :=
| Respond (status : nat) (body : option json) (delay : nat)
| NetworkError.

Definition resolves_at (r : request) (o : outcome) : nat :=
  match o with
  | Respond _ _ dl => req_time r + dl
  | NetworkError => req_time r
  end.

Definition is_failure (o : outcome) : bool :=
  match o with
  | Respond st _ _ => negb ((200 <=? st) && (st <? 300))
  | NetworkError => true
  end.

Record handler := {
  h_method : hmethod;
  h_pattern : pattern;
  h_resolver : request -> outcome
}.

Definition handler_matches (r : request) (h : handler) : bool :=
  method_matches (h_method h) (req_method r) && path_matches (h_pattern h) (req_path r).

(** ** The interception server ([setupServer]) *)

Record server := {
  initialHandlers : list handler;
  currentHandlers : list handler;
  listening : bool
}.

Definition setupServer (hs : list handler) : server :=
  {| initialHandlers := hs; currentHandlers := hs; listening := false |}.

(** [server.use(...hs)]: [handlersController.prepend(hs)]. *)
Definition use (s : server) (hs : list handler) : server :=
  {| initialHandlers := initialHandlers s;
     currentHandlers := hs ++ currentHandlers s;
     listening := listening s |}.

(** [server.resetHandlers(...next)]: [handlersController.reset(next)]. Given
    some handlers, they become both the initial and the current handlers;
    given none, the current handlers go back to the initial ones. *)
Definition resetHandlers (s : server) (next : list handler) : server :=
  {| initialHandlers := match next with [] => initialHandlers s | _ => next end;
     currentHandlers := match next with [] => initialHandlers s | _ => next end;
     listening := listening s |}.

Definition listen (s : server) : server :=
  {| initialHandlers := initialHandlers s;
     currentHandlers := currentHandlers s;
     listening := true |}.

Definition close (s : server) : server :=
  {| initialHandlers := initialHandlers s;
     currentHandlers := currentHandlers s;
     listening := false |}.

(** Where an outgoing request ends up. *)
Inductive delivery := Mocked (o : outcome) | Network.

(** While listening, the first matching handler answers; an unhandled
    request is performed as-is (the default [onUnhandledRequest: "warn"]).
    When not listening nothing is intercepted. *)
Definition handle (s : server) (r : request) : delivery :=
  if listening s then
    match find (handler_matches r) (currentHandlers s) with
    | Some h => Mocked (h_resolver h r)
    | None => Network
    end
  else Network.

(** The operations of the server's public API used in a test run. *)
Inductive server_step : server -> server -> Prop :=
| step_listen s : server_step s (listen s)
| step_close s : server_step s (close s)
| step_use s hs : server_step s (use s hs)
| step_reset s next : server_step s (resetHandlers s next).

(** The pair a registration is made for. *)
Definition key := (hmethod * pattern)%type.

Definition key_of (h : handler) : key := (h_method h, h_pattern h).

Definition key_eq_dec (a b : key) : {a = b} + {a <> b}.
Proof. decide equality; [apply (list_eq_dec segment_eq_dec) | apply hmethod_eq_dec]. Defined.

Definition key_eqb (a b : key) : bool := if key_eq_dec a b then true else false.

(** The registration that answers for a pair: the first one listed. *)
Definition active_for (s : server) (k : key) : option handler :=
  find (fun h => key_eqb (key_of h) k) (currentHandlers s).

(** The active registrations of a handler list: each handler not shadowed
    by an earlier one for the same pair. *)
Fixpoint active_handlers (hs : list handler) : list handler :=
  match hs with
  | [] => []
  | h :: t => h :: filter (fun h' => negb (key_eqb (key_of h') (key_of h))) (active_handlers t)
  end.

(** ** Fixtures and base handlers *)

(** Modelled from the spec: the fixture data of [src/mocks/data/] (not in
    the sources) and the delay [simulateDelay()] waits for. *)
Record mock_data := {
  mockProducts : json;
  mockOrders : json;
  mockCustomers : json;
  mockCategories : json;
  productById : string -> json;
  simulatedDelay : nat
}.

Inductive endpoint := Products | ProductById | Orders | Customers | Categories.

Definition endpoint_pattern (e : endpoint) : pattern :=
  match e with
  | Products => [Lit "products"%string]
  | ProductById => [Lit "products"%string; Param]
  | Orders => [Lit "orders"%string]
  | Customers => [Lit "customers"%string]
  | Categories => [Lit "categories"%string]
  end.

(** The fixture an endpoint serves for a request. *)
Definition endpoint_fixture (d : mock_data) (e : endpoint) (r : request) : json :=
  match e with
  | Products => mockProducts d
  | ProductById => productById d (nth 1 (req_path r) EmptyString)
  | Orders => mockOrders d
  | Customers => mockCustomers d
  | Categories => mockCategories d
  end.

(** Modelled from the spec: one handler of [src/mocks/handlers.ts] (not in
    the sources), [http.get(path, async () => { await simulateDelay();
    return HttpResponse.json(fixture); })]. *)
Definition endpoint_handler (d : mock_data) (e : endpoint) : handler :=
  {| h_method := Only GET;
     h_pattern := endpoint_pattern e;
     h_resolver := fun r => Respond 200 (Some (endpoint_fixture d e r)) (simulatedDelay d) |}.

Definition endpoints : list endpoint := [Products; ProductById; Orders; Customers; Categories].

Definition handlers (d : mock_data) : list handler := map (endpoint_handler d) endpoints.

Definition endpoint_matches (e : endpoint) (r : request) : bool :=
  method_beq GET (req_method r) && path_matches (endpoint_pattern e) (req_path r).

(** [export const mswServer = setupServer(...handlers)]. *)
Definition mswServer (d : mock_data) : server := setupServer (handlers d).

(** ** Override utilities *)

(** Modelled from the spec: [mockNNNError(pathPattern)] of
    [src/utils/test-server-utils.ts] (not in the sources), a handler for
    the pattern answering the status with an empty body. *)
Definition errorHandler (status : nat) (p : pattern) : handler :=
  {| h_method := All; h_pattern := p; h_resolver := fun _ => Respond status None 0 |}.

Definition mockError (status : nat) (s : server) (p : pattern) : server :=
  use s [errorHandler status p].

Definition mock404Error : server -> pattern -> server := mockError 404.

Definition mock500Error : server -> pattern -> server := mockError 500.

(** Modelled from the spec: [mockDelayedResponse(pathPattern, delayMs,
    payload)] of [src/utils/test-server-utils.ts] (not in the sources), a
    handler waiting [delayMs] (simulated) before answering [payload]. *)
Definition delayedHandler (p : pattern) (delayMs : nat) (payload : json) : handler :=
  {| h_method := All; h_pattern := p; h_resolver := fun _ => Respond 200 (Some payload) delayMs |}.

Definition mockDelayedResponse (s : server) (p : pattern) (delayMs : nat) (payload : json) : server :=
  use s [delayedHandler p delayMs payload].

(** ** The test runtime *)

(** What a test case does with the mock layer: install overrides
    ([server.use], directly or through the override utilities) and issue
    requests. *)
Inductive test_action := Use (hs : list handler) | Fetch (r : request).

Definition test_case := list test_action.

(** The observable trace of a test file; requests are recorded with the
    server state they met and where they were delivered. *)
Inductive event :=
| HookListen
| HookReset
| HookClose
| TestStart (k : nat) (s : server)
| Delivered (k : nat) (s : server) (r : request) (d : delivery)
| TestEnd (k : nat) (s : server).

Fixpoint run_body (k : nat) (s : server) (body : test_case) : server * list event :=
  match body with
  | [] => (s, [])
  | Use hs :: b => run_body k (use s hs) b
  | Fetch r :: b =>
      let '(s', evs) := run_body k s b in (s', Delivered k s r (handle s r) :: evs)
  end.

(** Test [k], then its [afterEach] hook, then the remaining tests. *)
Fixpoint run_tests (k : nat) (s : server) (ts : list test_case) : server * list event :=
  match ts with
  | [] => (s, [])
  | t :: ts' =>
      let '(s1, evs1) := run_body k s t in
      let s2 := resetHandlers s1 [] in
      let '(s3, evs) := run_tests (S k) s2 ts' in
      (s3, TestStart k s :: evs1 ++ TestEnd k s1 :: HookReset :: evs)
  end.

(** A test file run with [src/tests/setup.ts]: [beforeAll] listens,
    [afterEach] resets the handlers, [afterAll] closes. The environment
    loaded into the test runtime is not read by the setup file. *)
Definition run_setup_file (d : mock_data) (env : list (string * string)) (ts : list test_case)
  : list event :=
  let s1 := listen (mswServer d) in
  let '(_, evs) := run_tests 0 s1 ts in
  HookListen :: evs ++ [HookClose].

Record test_config := {
  globals : bool;
  environment : string;
  env : list (string * string);
  setupFiles : list string
}.

(** The [test] block of [vite.config.ts]; [loadEnv(mode, cwd, "")] is the
    argument. *)
Definition vite_test_config (loaded : list (string * string)) : test_config :=
  {| globals := true; environment := "jsdom"%string; env := loaded;
     setupFiles := ["./src/tests/setup.ts"%string] |}.

Definition run_vitest (d : mock_data) (cfg : test_config) (ts : list test_case) : list event :=
  if existsb (String.eqb "./src/tests/setup.ts"%string) (setupFiles cfg)
  then run_setup_file d (env cfg) ts
  else snd (run_tests 0 (mswServer d) ts).

Inductive reachable (d : mock_data) : server -> Prop :=
| reach_init : reachable d (mswServer d)
| reach_step s s' : reachable d s -> server_step s s' -> reachable d s'.

(** The calls the repository's own code makes on the server: [setup.ts]
    calls [listen()], [resetHandlers()] with no argument and [close()], and
    the mock utilities call [use(...)]. *)
Inductive repo_step : server -> server -> Prop :=
| rstep_listen s : repo_step s (listen s)
| rstep_close s : repo_step s (close s)
| rstep_use s hs : repo_step s (use s hs)
| rstep_reset s : repo_step s (resetHandlers s []).

Inductive repo_reachable (d : mock_data) : server -> Prop :=
| rreach_init : repo_reachable d (mswServer d)
| rreach_step s s' : repo_reachable d s -> repo_step s s' -> repo_reachable d s'.

(** The requests test [k] issued and where they were delivered. *)
Fixpoint deliveries_of (k : nat) (evs : list event) : list (request * delivery) :=
  match evs with
  | [] => []
  | Delivered j _ r dl :: evs' =>
      if Nat.eqb j k then (r, dl) :: deliveries_of k evs' else deliveries_of k evs'
  | _ :: evs' => deliveries_of k evs'
  end.

Definition is_failed (dl : delivery) : bool :=
  match dl with
  | Mocked o => is_failure o
  | Network => true
  end.

(** The overrides a list of test actions has installed, as they stand in
    front of the handler list: the latest [use] call first. *)
Fixpoint installed (acts : test_case) : list handler :=
  match acts with
  | [] => []
  | Use hs :: b => installed b ++ hs
  | Fetch _ :: b => installed b
  end.

(** ** lint-staged ([.lintstagedrc.js]) *)

(** The configuration: a glob per line, with the commands run on the
    staged files it matches. *)
Definition lintstagedrc : list (string * list string) :=
  [("*.{js,jsx,ts,tsx}"%string,
      ["eslint --fix"%string; "prettier --ignore-unknown --write"%string]);
   ("*.{css,md,json}"%string, ["prettier --write"%string])].

Definition chars (s : string) : list ascii := list_ascii_of_string s.

(** The text before and after the first occurrence of [c]. *)
Fixpoint split_first (c : ascii) (l : list ascii) : option (list ascii * list ascii) :=
  match l with
  | [] => None
  | x :: l' =>
      if Ascii.eqb x c then Some ([], l')
      else match split_first c l' with
           | Some (a, b) => Some (x :: a, b)
           | None => None
           end
  end.

Fixpoint split_on (c : ascii) (l : list ascii) : list (list ascii) :=
  match l with
  | [] => [[]]
  | x :: l' =>
      if Ascii.eqb x c then [] :: split_on c l'
      else match split_on c l' with
           | w :: ws => (x :: w) :: ws
           | [] => [[x]]
           end
  end.

(** Brace expansion of a glob, [pre{a,b}post] into [pre a post] and
    [pre b post], group after group; a group without a comma, or an
    unclosed one, is left as it is. *)
Fixpoint expand_braces_fuel (n : nat) (g : list ascii) : list (list ascii) :=
  match n with
  | 0 => [g]
  | S n' =>
      match split_first "{"%char g with
      | None => [g]
      | Some (pre, rest) =>
          match split_first "}"%char rest with
          | None => [g]
          | Some (inner, post) =>
              match split_on ","%char inner with
              | [] | [_] => [g]
              | alts =>
                  flat_map (fun alt => map (fun tl => pre ++ alt ++ tl) (expand_braces_fuel n' post)) alts
              end
          end
      end
  end.

Definition expand_braces (g : list ascii) : list (list ascii) := expand_braces_fuel (List.length g) g.

(** [*]: any run of characters other than [/] (dot files included, as
    lint-staged matches with [dot: true]) before what [rest] accepts. *)
Fixpoint star_match (rest : list ascii -> bool) (s : list ascii) : bool :=
  rest s || match s with
            | [] => false
            | x :: s' => negb (Ascii.eqb x "/"%char) && star_match rest s'
            end.

(** Matching one brace-free glob of literals and [*] against a name. *)
Fixpoint gmatch (p s : list ascii) : bool :=
  match p with
  | [] => match s with [] => true | _ => false end
  | c :: p' =>
      if Ascii.eqb c "*"%char then star_match (gmatch p') s
      else match s with
           | [] => false
           | x :: s' => Ascii.eqb c x && gmatch p' s'
           end
  end.

Fixpoint upto_slash (l : list ascii) : list ascii :=
  match l with
  | [] => []
  | c :: l' => if Ascii.eqb c "/"%char then [] else c :: upto_slash l'
  end.

(** The last segment of a path. *)
Definition basename (f : list ascii) : list ascii := rev (upto_slash (rev f)).

(** A glob without [/] is matched against the basename of the staged file
    ([matchBase]). *)
Definition glob_matches (g : string) (f : list ascii) : bool :=
  if existsb (Ascii.eqb "/"%char) (chars g)
  then existsb (fun alt => gmatch alt f) (expand_braces (chars g))
  else existsb (fun alt => gmatch alt (basename f)) (expand_braces (chars g)).

(** The command lists lint-staged runs on a staged file: one per
    configured glob that matches it. *)
Definition matching_tasks (f : list ascii) : list (list string) :=
  map snd (filter (fun gc => glob_matches (fst gc) f) lintstagedrc).

(** [l1] is a suffix of [l2]. *)
Definition suffixb (l1 l2 : list ascii) : bool :=
  (List.length l1 <=? List.length l2) &&
  (if list_eq_dec ascii_dec (skipn (List.length l2 - List.length l1) l2) l1 then true else false).

(** ** Sample inputs *)

Definition sample_data : mock_data :=
  {| mockProducts := JArr [JObj [("id"%string, JNum 1)]];
     mockOrders := JArr [];
     mockCustomers := JArr [];
     mockCategories := JArr [JStr "toys"];
     productById := fun id => JObj [("id"%string, JStr id)];
     simulatedDelay := 300 |}.

Definition products_path : pattern := [Lit "products"%string].

Definition product_999_path : pattern := [Lit "products"%string; Lit "999"%string].

Definition get_products : request :=
  {| req_method := GET; req_path := ["products"%string]; req_time := 10 |}.

Definition get_product_999 : request :=
  {| req_method := GET; req_path := ["products"%string; "999"%string]; req_time := 10 |}.

Definition listening_server : server := listen (mswServer sample_data).

(** A test overriding [/products/999] with a 404, then fetching
    [/products] and [/products/999]. *)
Definition sample_test : test_case :=
  [Use [errorHandler 404 product_999_path]; Fetch get_products; Fetch get_product_999].

(** * Properties *)

(** ** Lists and keys *)

Lemma find_app {A} (f : A -> bool) (l1 l2 : list A) :
  find f (l1 ++ l2) = match find f l1 with Some x => Some x | None => find f l2 end.
Proof.
  induction l1 as [|x l1 IH]; simpl; [reflexivity|].
  destruct (f x); [reflexivity | exact IH].
Qed.

Lemma find_app_none {A} (f : A -> bool) (l1 l2 : list A) :
  (forall x, In x l1 -> f x = false) -> find f (l1 ++ l2) = find f l2.
Proof.
  intros H. rewrite find_app.
  destruct (find f l1) eqn:E; [|reflexivity].
  apply find_some in E as [Hin Hf]. rewrite (H _ Hin) in Hf. discriminate.
Qed.

Lemma key_eqb_true a b : key_eqb a b = true <-> a = b.
Proof. unfold key_eqb. destruct (key_eq_dec a b); split; congruence. Qed.

Lemma key_eqb_refl a : key_eqb a a = true.
Proof. apply key_eqb_true. reflexivity. Qed.

Lemma key_eqb_false a b : key_eqb a b = false <-> a <> b.
Proof. unfold key_eqb. destruct (key_eq_dec a b); split; congruence. Qed.

Lemma handler_matches_key r h1 h2 :
  key_of h1 = key_of h2 -> handler_matches r h1 = handler_matches r h2.
Proof. unfold key_of, handler_matches. intros H. inversion H as [[Hm Hp]]. rewrite Hm, Hp. reflexivity. Qed.

Lemma filter_keeps_NoDup_image {A B} (f : A -> B) (keep : A -> bool) (l : list A) :
  NoDup (map f l) -> NoDup (map f (filter keep l)).
Proof.
  intros Hnd. induction l as [|x l IH]; [constructor|].
  cbn [map] in Hnd. apply NoDup_cons_iff in Hnd as [Hx Hl].
  specialize (IH Hl). cbn [filter]. destruct (keep x); [|exact IH].
  cbn [map]. apply NoDup_cons; [|exact IH].
  rewrite in_map_iff. intros [y [Hfy Hy]]. rewrite filter_In in Hy.
  apply Hx, in_map_iff. exists y. tauto.
Qed.

Lemma active_handlers_NoDup hs : NoDup (map key_of (active_handlers hs)).
Proof.
  induction hs as [|h t IH]; simpl; constructor.
  - intros Hin. apply in_map_iff in Hin as [h' [Hk Hin]].
    apply filter_In in Hin as [_ Hf].
    rewrite Hk, key_eqb_refl in Hf. discriminate.
  - apply filter_keeps_NoDup_image. exact IH.
Qed.

(** The handler that answers a request is an active registration. *)
Lemma find_matches_active r hs h :
  find (handler_matches r) hs = Some h ->
  In h (active_handlers hs) /\ find (fun h' => key_eqb (key_of h') (key_of h)) hs = Some h.
Proof.
  induction hs as [|h0 t IH]; simpl; [discriminate|].
  destruct (handler_matches r h0) eqn:Hm.
  - intros E. inversion E; subst. rewrite key_eqb_refl. split; [left|]; reflexivity.
  - intros E. destruct (IH E) as [Hin Hf].
    assert (Hne : key_of h0 <> key_of h).
    { intros Hk. apply find_some in E as [_ Hh].
      rewrite (handler_matches_key r h0 h Hk), Hh in Hm. discriminate. }
    split.
    + right. apply filter_In. split; [exact Hin|].
      apply negb_true_iff, key_eqb_false. auto.
    + apply key_eqb_false in Hne. rewrite Hne. exact Hf.
Qed.

(** ** The server *)

Lemma repo_reachable_initial d s : repo_reachable d s -> initialHandlers s = handlers d.
Proof.
  induction 1 as [|s s' _ IH Hs]; [reflexivity|].
  inversion Hs; subst; exact IH.
Qed.

Lemma path_matches_lit s u : path_matches [Lit s] u = true -> u = [s].
Proof.
  destruct u as [|x [|y u]]; simpl; try discriminate.
  - rewrite andb_true_r. intros H. apply String.eqb_eq in H. subst. reflexivity.
  - rewrite andb_false_r. discriminate.
Qed.

Lemma path_matches_lit_param s u :
  path_matches [Lit s; Param] u = true -> exists c y, u = [s; String c y].
Proof.
  destruct u as [|x [|[|c y] [|z u]]]; simpl; try discriminate;
    try (rewrite !andb_false_r; discriminate).
  rewrite andb_true_r. intros H. apply String.eqb_eq in H. subst. eauto.
Qed.

Lemma base_lookup d e r :
  endpoint_matches e r = true ->
  find (handler_matches r) (handlers d) = Some (endpoint_handler d e).
Proof.
  destruct r as [m u t]. unfold endpoint_matches. cbn [req_method req_path].
  intros H. apply andb_prop in H as [Hm Hp].
  destruct m; try discriminate.
  destruct e; cbn [endpoint_pattern] in Hp;
    first [ apply path_matches_lit in Hp; subst; reflexivity
          | apply path_matches_lit_param in Hp as [c [y ->]]; reflexivity ].
Qed.

(** ** The test lifecycle *)

Lemma run_body_fetch k s r b :
  run_body k s (Fetch r :: b) =
  (fst (run_body k s b), Delivered k s r (handle s r) :: snd (run_body k s b)).
Proof. simpl. destruct (run_body k s b). reflexivity. Qed.

Lemma run_tests_cons k s t ts :
  run_tests k s (t :: ts) =
  (fst (run_tests (S k) (resetHandlers (fst (run_body k s t)) []) ts),
   TestStart k s :: snd (run_body k s t)
     ++ TestEnd k (fst (run_body k s t)) :: HookReset
     :: snd (run_tests (S k) (resetHandlers (fst (run_body k s t)) []) ts)).
Proof.
  simpl. destruct (run_body k s t) as [s1 evs1]. simpl.
  destruct (run_tests (S k) (resetHandlers s1 []) ts). reflexivity.
Qed.

Lemma run_setup_file_eq d env ts :
  run_setup_file d env ts =
  HookListen :: snd (run_tests 0 (listen (mswServer d)) ts) ++ [HookClose].
Proof. unfold run_setup_file. destruct (run_tests 0 _ ts). reflexivity. Qed.

(** A test body only adds overrides in front of what it started with. *)
Lemma run_body_state b : forall k s,
  listening (fst (run_body k s b)) = listening s /\
  initialHandlers (fst (run_body k s b)) = initialHandlers s /\
  exists rt, currentHandlers (fst (run_body k s b)) = rt ++ currentHandlers s.
Proof.
  induction b as [|[hs|r] b IH]; intros k s.
  - repeat split. exists []. reflexivity.
  - simpl. destruct (IH k (use s hs)) as [H1 [H2 [rt H3]]].
    repeat split; [exact H1 | exact H2|]. exists (rt ++ hs).
    rewrite H3. cbn [use currentHandlers]. rewrite app_assoc. reflexivity.
  - rewrite run_body_fetch. apply IH.
Qed.

(** A test body only records deliveries of its own requests, each made to a
    state of the same test. *)
Lemma run_body_events b : forall k s e,
  In e (snd (run_body k s b)) ->
  exists s' r, e = Delivered k s' r (handle s' r) /\
    listening s' = listening s /\ initialHandlers s' = initialHandlers s /\
    exists rt, currentHandlers s' = rt ++ currentHandlers s.
Proof.
  induction b as [|[hs|r] b IH]; intros k s e Hin.
  - contradiction.
  - simpl in Hin. destruct (IH k (use s hs) e Hin) as [s' [r [He [H1 [H2 [rt H3]]]]]].
    exists s', r. repeat split; [exact He | exact H1 | exact H2 |].
    exists (rt ++ hs). rewrite H3. cbn [use currentHandlers]. rewrite app_assoc. reflexivity.
  - rewrite run_body_fetch in Hin. destruct Hin as [He | Hin].
    + exists s, r. repeat split; [symmetry; exact He|]. exists []. reflexivity.
    + apply (IH k s e Hin).
Qed.

(** [resetHandlers()] after a test puts back a state with no override. *)
Lemma reset_after_body k s b :
  currentHandlers s = initialHandlers s ->
  resetHandlers (fst (run_body k s b)) [] = s.
Proof.
  intros Hs. destruct (run_body_state b k s) as [H1 [H2 _]].
  unfold resetHandlers. rewrite H1, H2. destruct s; simpl in *. subst. reflexivity.
Qed.

(** Every event of a run of tests from a state with no override. *)
Lemma run_tests_events ts : forall k s0 e,
  currentHandlers s0 = initialHandlers s0 ->
  In e (snd (run_tests k s0 ts)) ->
  e = HookReset \/ (exists j, e = TestStart j s0) \/
  (exists j t, e = TestEnd j (fst (run_body j s0 t))) \/
  (exists j t, In e (snd (run_body j s0 t))).
Proof.
  induction ts as [|t ts IH]; intros k s0 e Hs Hin; [contradiction|].
  rewrite run_tests_cons, (reset_after_body k s0 t Hs) in Hin.
  destruct Hin as [He | Hin]; [right; left; eauto|].
  apply in_app_or in Hin as [Hin | [He | [He | Hin]]].
  - right; right; right; eauto.
  - right; right; left; eauto.
  - left; auto.
  - exact (IH (S k) s0 e Hs Hin).
Qed.

Lemma run_body_no_TestEnd b k s j s' : ~ In (TestEnd j s') (snd (run_body k s b)).
Proof. intros Hin. destruct (run_body_events b k s _ Hin) as [? [? [He _]]]. discriminate. Qed.

Lemma run_tests_end_reset ts : forall k s j s',
  In (TestEnd j s') (snd (run_tests k s ts)) ->
  exists pre post, snd (run_tests k s ts) = pre ++ TestEnd j s' :: HookReset :: post.
Proof.
  induction ts as [|t ts IH]; intros k s j s' Hin; [contradiction|].
  rewrite run_tests_cons in *. simpl snd in *.
  destruct Hin as [He | Hin]; [discriminate|].
  apply in_app_or in Hin as [Hin | [He | [He | Hin]]].
  - exfalso. exact (run_body_no_TestEnd t k s j s' Hin).
  - injection He as Hj Hs'. subst j s'.
    exists (TestStart k s :: snd (run_body k s t)), (snd (run_tests (S k) (resetHandlers (fst (run_body k s t)) []) ts)).
    reflexivity.
  - discriminate.
  - destruct (IH _ _ _ _ Hin) as [pre [post E]]. rewrite E.
    exists (TestStart k s :: snd (run_body k s t) ++ TestEnd k (fst (run_body k s t)) :: HookReset :: pre), post.
    simpl. rewrite <- app_assoc. reflexivity.
Qed.

Lemma run_body_no_TestStart b k s j s' : ~ In (TestStart j s') (snd (run_body k s b)).
Proof. intros Hin. destruct (run_body_events b k s _ Hin) as [? [? [He _]]]. discriminate. Qed.

(** What comes right before a test start: nothing for the first test of the
    run, the previous test's end and its [afterEach] reset for the others. *)
Lemma run_tests_start_prev ts : forall k s0 j s,
  In (TestStart j s) (snd (run_tests k s0 ts)) ->
  exists pre post, snd (run_tests k s0 ts) = pre ++ TestStart j s :: post /\
    ((j = k /\ pre = []) \/
     (exists i s' pre', j = S i /\ pre = pre' ++ [TestEnd i s'; HookReset])).
Proof.
  induction ts as [|t ts IH]; intros k s0 j s Hin; [contradiction|].
  rewrite run_tests_cons in *. simpl snd in *.
  set (s1 := fst (run_body k s0 t)) in *.
  set (evs1 := snd (run_body k s0 t)) in *.
  set (evs := snd (run_tests (S k) _ ts)) in *.
  destruct Hin as [He | Hin].
  - injection He as Hj Hs. subst j s.
    exists [], (evs1 ++ TestEnd k s1 :: HookReset :: evs). split; [reflexivity|]. left. auto.
  - apply in_app_or in Hin as [Hin | [He | [He | Hin]]]; try discriminate.
    + exfalso. exact (run_body_no_TestStart t k s0 j s Hin).
    + destruct (IH (S k) (resetHandlers s1 []) j s Hin) as [pre [post [E Hpre]]].
      change (snd (run_tests (S k) (resetHandlers s1 []) ts)) with evs in E.
      exists (TestStart k s0 :: evs1 ++ TestEnd k s1 :: HookReset :: pre), post.
      split; [rewrite E; simpl; rewrite <- ?app_assoc; reflexivity|].
      right. destruct Hpre as [[-> ->] | [i [s' [pre' [-> ->]]]]].
      * exists k, s1, (TestStart k s0 :: evs1). split; [reflexivity|]. simpl. rewrite <- ?app_assoc. reflexivity.
      * exists i, s', (TestStart k s0 :: evs1 ++ TestEnd k s1 :: HookReset :: pre').
        split; [reflexivity|]. simpl. rewrite <- ?app_assoc. reflexivity.
Qed.

(** ** Deliveries per test *)

Lemma deliveries_of_app k l1 l2 :
  deliveries_of k (l1 ++ l2) = deliveries_of k l1 ++ deliveries_of k l2.
Proof.
  induction l1 as [|[| | | | j s r dl |] l1 IH]; simpl; try exact IH; [reflexivity|].
  destruct (Nat.eqb j k); simpl; rewrite IH; reflexivity.
Qed.

Lemma deliveries_of_body_other b : forall k s j,
  k <> j -> deliveries_of j (snd (run_body k s b)) = [].
Proof.
  induction b as [|[hs|r] b IH]; intros k s j Hkj; [reflexivity | apply IH; exact Hkj|].
  rewrite run_body_fetch. simpl. apply Nat.eqb_neq in Hkj. rewrite Hkj. apply IH.
  apply Nat.eqb_neq. exact Hkj.
Qed.

Lemma deliveries_of_body_index b : forall k s,
  deliveries_of k (snd (run_body k s b)) = deliveries_of 0 (snd (run_body 0 s b)).
Proof.
  induction b as [|[hs|r] b IH]; intros k s; [reflexivity | apply IH|].
  rewrite !run_body_fetch. simpl. rewrite !Nat.eqb_refl, IH. reflexivity.
Qed.

Lemma deliveries_of_tests_before ts : forall k s j,
  j < k -> deliveries_of j (snd (run_tests k s ts)) = [].
Proof.
  induction ts as [|t ts IH]; intros k s j Hjk; [reflexivity|].
  rewrite run_tests_cons. simpl snd. simpl deliveries_of.
  rewrite deliveries_of_app, deliveries_of_body_other by lia. simpl.
  apply IH. lia.
Qed.

Lemma deliveries_of_tests_at pre t post : forall k s0,
  currentHandlers s0 = initialHandlers s0 ->
  deliveries_of (k + List.length pre) (snd (run_tests k s0 (pre ++ t :: post))) =
  deliveries_of 0 (snd (run_body 0 s0 t)).
Proof.
  induction pre as [|p pre IH]; intros k s0 Hs; simpl app.
  - rewrite run_tests_cons, Nat.add_0_r. simpl snd. simpl deliveries_of.
    rewrite deliveries_of_app. simpl deliveries_of.
    rewrite deliveries_of_tests_before by lia.
    rewrite app_nil_r. apply deliveries_of_body_index.
  - rewrite run_tests_cons, (reset_after_body k s0 p Hs). simpl snd. simpl deliveries_of.
    rewrite deliveries_of_app, deliveries_of_body_other by (simpl; lia). simpl.
    replace (k + S (List.length pre)) with (S k + List.length pre) by lia.
    apply IH. exact Hs.
Qed.

(** ** States met during a test file *)

Lemma fresh_listening d :
  currentHandlers (listen (mswServer d)) = initialHandlers (listen (mswServer d)).
Proof. reflexivity. Qed.

Lemma in_setup_file d env ts e :
  In e (run_setup_file d env ts) ->
  e = HookListen \/ e = HookClose \/ In e (snd (run_tests 0 (listen (mswServer d)) ts)).
Proof.
  rewrite run_setup_file_eq. intros [He | Hin]; [auto|].
  apply in_app_or in Hin as [Hin | [He | []]]; auto.
Qed.

Lemma delivered_state d env ts k s r dl :
  In (Delivered k s r dl) (run_setup_file d env ts) ->
  dl = handle s r /\ listening s = true /\ initialHandlers s = handlers d /\
  exists rt, currentHandlers s = rt ++ handlers d.
Proof.
  intros Hin. apply in_setup_file in Hin as [He | [He | Hin]]; try discriminate.
  apply run_tests_events in Hin; [|apply fresh_listening].
  destruct Hin as [He | [[j He] | [[j [t He]] | [j [t Hin]]]]]; try discriminate.
  apply run_body_events in Hin as [s' [r' [He [H1 [H2 [rt H3]]]]]].
  injection He as Hj Hs Hr Hd. subst.
  repeat split; [exact H1 | exact H2 | exists rt; exact H3].
Qed.

Lemma start_state d env ts k s :
  In (TestStart k s) (run_setup_file d env ts) -> s = listen (mswServer d).
Proof.
  intros Hin. apply in_setup_file in Hin as [He | [He | Hin]]; try discriminate.
  apply run_tests_events in Hin; [|apply fresh_listening].
  destruct Hin as [He | [[j He] | [[j [t He]] | [j [t Hin]]]]]; try discriminate.
  - injection He as _ Hs. exact Hs.
  - apply run_body_events in Hin as [? [? [He _]]]. discriminate.
Qed.

Lemma end_state d env ts k s :
  In (TestEnd k s) (run_setup_file d env ts) ->
  listening s = true /\ initialHandlers s = handlers d.
Proof.
  intros Hin. apply in_setup_file in Hin as [He | [He | Hin]]; try discriminate.
  apply run_tests_events in Hin; [|apply fresh_listening].
  destruct Hin as [He | [[j He] | [[j [t He]] | [j [t Hin]]]]]; try discriminate.
  - injection He as -> ->. destruct (run_body_state t j (listen (mswServer d))) as [H1 [H2 _]].
    rewrite H1, H2. auto.
  - apply run_body_events in Hin as [? [? [He _]]]. discriminate.
Qed.

(** ** C1 *)

(** C1: what a test case observes does not depend on the test cases run
    before it: each test starts from the listening server with the base
    handlers only (the [afterEach] reset discarded the earlier overrides),
    and the requests of a test are delivered exactly as when the test is
    run alone, whatever the earlier tests installed and with no cleanup in
    the tests themselves. *)
Theorem override_isolation d env pre t post :
  (forall k s, In (TestStart k s) (run_setup_file d env (pre ++ t :: post)) ->
     s = listen (mswServer d)) /\
  deliveries_of (List.length pre) (run_setup_file d env (pre ++ t :: post)) =
  deliveries_of 0 (run_setup_file d env [t]).
Proof.
  split; [intros k s; apply start_state|].
  rewrite !run_setup_file_eq. simpl deliveries_of. rewrite !deliveries_of_app. simpl.
  rewrite !app_nil_r.
  rewrite <- (Nat.add_0_l (List.length pre)).
  rewrite deliveries_of_tests_at by apply fresh_listening.
  exact (eq_sym (deliveries_of_tests_at [] t [] 0 _ (fresh_listening d))).
Qed.

(** ** C2 *)

(** C2 (as it holds): [resetHandlers()] sets the current handler list to
    the server's initial list, so every override added by [use] is
    discarded, and it changes neither that list nor whether the server
    listens. Along the calls the repository makes ([listen()], [close()],
    [use(...)], [resetHandlers()] without arguments) the initial list stays
    the base handler set of [mswServer], so after each such reset the
    registry is exactly the base handler set. *)
Theorem resetHandlers_restores_initial d :
  (forall s, currentHandlers (resetHandlers s []) = initialHandlers s /\
             initialHandlers (resetHandlers s []) = initialHandlers s /\
             listening (resetHandlers s []) = listening s) /\
  (forall s hs, resetHandlers (use s hs) [] = resetHandlers s []) /\
  (forall s, repo_reachable d s ->
     currentHandlers (resetHandlers s []) = handlers d /\
     initialHandlers (resetHandlers s []) = handlers d).
Proof.
  split; [|split].
  - intros s. auto.
  - intros s hs. reflexivity.
  - intros s H. apply repo_reachable_initial in H. simpl. auto.
Qed.

(** ** C3 *)

(** C3 (as it holds): for every server state the active registrations have
    pairwise distinct (method, pattern) pairs, every intercepted request is
    answered by the active registration of a pair it matches, and a [use]
    call puts its handlers in front: the first handler of the call for a
    pair becomes the active one, pairs it does not mention keep theirs. *)
Theorem active_registration_unique s :
  NoDup (map key_of (active_handlers (currentHandlers s))) /\
  (forall r o, handle s r = Mocked o ->
     exists h, In h (active_handlers (currentHandlers s)) /\
       active_for s (key_of h) = Some h /\ handler_matches r h = true /\
       o = h_resolver h r) /\
  (forall hs k, active_for (use s hs) k =
     match find (fun h => key_eqb (key_of h) k) hs with
     | Some h => Some h
     | None => active_for s k
     end).
Proof.
  split; [apply active_handlers_NoDup|]. split.
  - intros r o. unfold handle.
    destruct (listening s); [|discriminate].
    destruct (find (handler_matches r) (currentHandlers s)) as [h|] eqn:E; [|discriminate].
    intros Ho. injection Ho as <-.
    destruct (find_matches_active r _ h E) as [Hin Hk].
    apply find_some in E as [_ Hm].
    exists h. split; [exact Hin|]. split; [exact Hk|]. split; [exact Hm | reflexivity].
  - intros hs k. unfold active_for, use. simpl. apply find_app.
Qed.

(** ** C4 *)

(** C4 (as it holds): while interception is active, after
    [mockNNNError(pathPattern)] a request matching the pattern is answered
    with exactly that status and an empty body, as long as no override
    installed afterwards matches the request. *)
Theorem mockError_response status s p hs r :
  listening s = true ->
  path_matches p (req_path r) = true ->
  (forall h, In h hs -> handler_matches r h = false) ->
  handle (use (mockError status s p) hs) r = Mocked (Respond status None 0).
Proof.
  intros Hl Hp Hhs. unfold handle, use, mockError. simpl. rewrite Hl.
  rewrite (find_app_none _ hs _ Hhs). simpl.
  unfold handler_matches at 1. simpl. rewrite Hp. reflexivity.
Qed.

(** ** C5 *)

(** C5 (as it holds): while interception is active, after
    [mockDelayedResponse(pathPattern, delayMs, payload)] a request matching
    the pattern resolves with status 200 and exactly [payload], no earlier
    than [delayMs] after it is issued, as long as no override installed
    afterwards matches the request. *)
Theorem mockDelayedResponse_response s p delayMs payload hs r :
  listening s = true ->
  path_matches p (req_path r) = true ->
  (forall h, In h hs -> handler_matches r h = false) ->
  exists st dl,
    handle (use (mockDelayedResponse s p delayMs payload) hs) r = Mocked (Respond st (Some payload) dl) /\
    req_time r + delayMs <= resolves_at r (Respond st (Some payload) dl).
Proof.
  intros Hl Hp Hhs. exists 200, delayMs. split.
  - unfold handle, use, mockDelayedResponse. simpl. rewrite Hl.
    rewrite (find_app_none _ hs _ Hhs). simpl.
    unfold handler_matches at 1. simpl. rewrite Hp. reflexivity.
  - simpl. lia.
Qed.

(** ** C6 *)

(** C6: during a test, a request to a known endpoint that no override of
    the test matches is answered with status 200 and the endpoint's fixture
    unchanged; such a request fails (non-2xx status, network failure or
    real network) only when an override installed by the test matches it,
    and then that override produced the failure. *)
Theorem fixture_by_default d env ts k s r dl e :
  In (Delivered k s r dl) (run_setup_file d env ts) ->
  endpoint_matches e r = true ->
  exists rt, currentHandlers s = rt ++ handlers d /\
    ((forall h, In h rt -> handler_matches r h = false) ->
       dl = Mocked (Respond 200 (Some (endpoint_fixture d e r)) (simulatedDelay d))) /\
    (is_failed dl = true ->
       exists h, In h rt /\ handler_matches r h = true /\ dl = Mocked (h_resolver h r)).
Proof.
  intros Hin He. apply delivered_state in Hin as [-> [Hl [_ [rt Hc]]]].
  exists rt. split; [exact Hc|]. unfold handle. rewrite Hl, Hc. split.
  - intros Hno. rewrite (find_app_none _ rt _ Hno), (base_lookup d e r He). reflexivity.
  - rewrite find_app. destruct (find (handler_matches r) rt) as [h|] eqn:E.
    + intros _. apply find_some in E as [Hh Hm]. exists h. auto.
    + rewrite (base_lookup d e r He). simpl. discriminate.
Qed.

(** ** C7 *)

(** C7: every request issued by a test case meets a listening server, and
    a request matched by a registered handler is then never delivered to
    the real network. *)
Theorem no_network_while_listening d env ts k s r dl :
  In (Delivered k s r dl) (run_setup_file d env ts) ->
  listening s = true /\
  ((exists h, In h (currentHandlers s) /\ handler_matches r h = true) -> dl <> Network).
Proof.
  intros Hin. apply delivered_state in Hin as [-> [Hl _]].
  split; [exact Hl|]. intros [h [Hh Hm]].
  unfold handle. rewrite Hl.
  destruct (find (handler_matches r) (currentHandlers s)) eqn:E; [discriminate|].
  rewrite (find_none _ _ E h Hh) in Hm. discriminate.
Qed.

(** ** C8 *)

(** C8 (as it holds): every test case starts with no override installed;
    no hook runs at a test's start: the event just before test [0] starts
    is [beforeAll]'s [listen()], and the events just before test [k+1]
    starts are the end of test [k] and its [afterEach] reset; and the end
    of every test case is immediately followed by the [afterEach] reset of
    the handlers. *)
Theorem reset_at_test_end d env ts :
  (forall k s, In (TestStart k s) (run_setup_file d env ts) ->
     currentHandlers s = initialHandlers s) /\
  (forall k s, In (TestStart k s) (run_setup_file d env ts) ->
     exists pre post, run_setup_file d env ts = pre ++ TestStart k s :: post /\
       ((k = 0 /\ pre = [HookListen]) \/
        (exists j s' pre', k = S j /\ pre = pre' ++ [TestEnd j s'; HookReset]))) /\
  (forall k s, In (TestEnd k s) (run_setup_file d env ts) ->
     exists pre post, run_setup_file d env ts = pre ++ TestEnd k s :: HookReset :: post).
Proof.
  split; [|split].
  - intros k s Hin. apply start_state in Hin as ->. reflexivity.
  - intros k s Hin. apply in_setup_file in Hin as [He | [He | Hin]]; try discriminate.
    apply run_tests_start_prev in Hin as [pre [post [E Hpre]]].
    rewrite run_setup_file_eq, E.
    exists (HookListen :: pre), (post ++ [HookClose]).
    split; [simpl; rewrite <- app_assoc; reflexivity|].
    destruct Hpre as [[-> ->] | [j [s' [pre' [-> ->]]]]]; [left; auto | right].
    exists j, s', (HookListen :: pre'). auto.
  - intros k s Hin. apply in_setup_file in Hin as [He | [He | Hin]]; try discriminate.
    apply run_tests_end_reset in Hin as [pre [post E]].
    rewrite run_setup_file_eq, E.
    exists (HookListen :: pre), (post ++ [HookClose]). simpl.
    rewrite <- app_assoc. reflexivity.
Qed.

(** ** C9 *)

(** C9: under the [test] configuration of [vite.config.ts] the first thing
    that happens is [listen()], every test case starts with interception
    active, and the run is the same whatever environment [loadEnv] gave. *)
Theorem listen_unconditional_in_tests d loaded ts :
  (exists evs, run_vitest d (vite_test_config loaded) ts = HookListen :: evs /\
     forall k s, In (TestStart k s) evs -> listening s = true) /\
  (forall loaded', run_vitest d (vite_test_config loaded') ts =
                   run_vitest d (vite_test_config loaded) ts).
Proof.
  split; [|reflexivity].
  unfold run_vitest. cbn [setupFiles vite_test_config existsb]. rewrite String.eqb_refl.
  cbn [orb env vite_test_config].
  exists (snd (run_tests 0 (listen (mswServer d)) ts) ++ [HookClose]). split.
  - apply run_setup_file_eq.
  - intros k s Hin.
    assert (Hf : In (TestStart k s) (run_setup_file d loaded ts))
      by (rewrite run_setup_file_eq; right; exact Hin).
    apply start_state in Hf as ->. reflexivity.
Qed.

(** ** C10 *)

(** C10: [resetHandlers()] changes neither the listening flag nor the base
    handlers; in a test file interception stays active at every test start,
    request and test end, and it is turned off only by the final [close()]
    of [afterAll]. *)
Theorem reset_keeps_interception :
  (forall s, listening (resetHandlers s []) = listening s /\
             initialHandlers (resetHandlers s []) = initialHandlers s) /\
  (forall d env ts, exists evs,
     run_setup_file d env ts = evs ++ [HookClose] /\ ~ In HookClose evs /\
     forall e, In e evs ->
       match e with
       | TestStart _ s | TestEnd _ s | Delivered _ s _ _ => listening s = true
       | _ => True
       end).
Proof.
  split; [intros s; split; reflexivity|].
  intros d env ts. exists (HookListen :: snd (run_tests 0 (listen (mswServer d)) ts)).
  split; [apply run_setup_file_eq|]. split.
  - intros [He | Hin]; [discriminate|].
    apply run_tests_events in Hin; [|apply fresh_listening].
    destruct Hin as [He | [[j He] | [[j [t He]] | [j [t Hin]]]]]; try discriminate.
    apply run_body_events in Hin as [? [? [He _]]]. discriminate.
  - intros e Hin.
    assert (Hf : In e (run_setup_file d env ts)).
    { rewrite run_setup_file_eq. destruct Hin as [He | Hin]; [left; exact He|].
      right. apply in_or_app. left. exact Hin. }
    destruct e as [| | | k s | k s r dl | k s]; try exact I.
    + apply start_state in Hf as ->. reflexivity.
    + apply delivered_state in Hf as [_ [Hl _]]. exact Hl.
    + apply end_state in Hf as [Hl _]. exact Hl.
Qed.

(** * Counterexamples *)

(** C3: within one [use(h1, h2)] call for the same pair, the last
    registration [h2] is not the active one: the first listed answers. *)
Lemma last_registration_in_one_call_not_active :
  ~ (forall s h1 h2, key_of h1 = key_of h2 ->
       active_for (use s [h1; h2]) (key_of h2) = Some h2).
Proof.
  intros H.
  specialize (H listening_server (errorHandler 404 products_path)
                (errorHandler 500 products_path) eq_refl).
  assert (E : active_for (use listening_server [errorHandler 404 products_path;
                                                 errorHandler 500 products_path])
                (key_of (errorHandler 500 products_path))
              = Some (errorHandler 404 products_path)) by reflexivity.
  rewrite E in H.
  apply (f_equal (option_map (fun h => h_resolver h get_products))) in H.
  simpl in H. discriminate H.
Qed.

(** C4: [mock404Error("/products/999")] followed by
    [mock500Error("/products/999")] in the same test: the next matching
    request gets 500, not 404. *)
Lemma mockError_overridden_later :
  ~ (forall status s p hs r,
       listening s = true -> path_matches p (req_path r) = true ->
       handle (use (mockError status s p) hs) r = Mocked (Respond status None 0)).
Proof.
  intros H.
  specialize (H 404 listening_server product_999_path
                [errorHandler 500 product_999_path] get_product_999 eq_refl eq_refl).
  vm_compute in H. discriminate H.
Qed.

(** C5: [mockDelayedResponse("/products", 2000, products)] followed by
    [mock500Error("/products")]: the next matching request gets a 500 with
    an empty body, not the payload. *)
Lemma mockDelayedResponse_overridden_later :
  ~ (forall s p delayMs payload hs r,
       listening s = true -> path_matches p (req_path r) = true ->
       exists st dl,
         handle (use (mockDelayedResponse s p delayMs payload) hs) r =
           Mocked (Respond st (Some payload) dl) /\
         req_time r + delayMs <= resolves_at r (Respond st (Some payload) dl)).
Proof.
  intros H.
  destruct (H listening_server products_path 2000 (mockProducts sample_data)
              [errorHandler 500 products_path] get_products eq_refl eq_refl)
    as [st [dl [E _]]].
  vm_compute in E. discriminate E.
Qed.

(** C8: no reset hook runs right before a test starts: in a file with one
    test, the event before its start is [listen()]. *)
Lemma no_reset_before_test_start :
  ~ (forall d env ts k s, In (TestStart k s) (run_setup_file d env ts) ->
       exists pre post, run_setup_file d env ts = pre ++ HookReset :: TestStart k s :: post).
Proof.
  intros H.
  destruct (H sample_data [] [[]] 0 listening_server) as [pre [post E]].
  - rewrite run_setup_file_eq. simpl. auto.
  - rewrite run_setup_file_eq in E. simpl in E.
    destruct pre as [|e1 [|e2 [|e3 [|e4 [|e5 [|e6 pre]]]]]]; simpl in E; discriminate E.
Qed.

(** C2: once [resetHandlers] has been called with a handler, that handler
    becomes the initial list, and a later [resetHandlers()] restores it
    instead of the base handler set. *)
Lemma reset_with_handlers_changes_base :
  ~ (forall d s, reachable d s -> currentHandlers (resetHandlers s []) = handlers d).
Proof.
  intros H.
  assert (Hr : reachable sample_data
                 (resetHandlers listening_server [errorHandler 500 products_path])).
  { eapply reach_step; [|apply step_reset].
    eapply reach_step; [apply reach_init | apply step_listen]. }
  apply H, (f_equal (@List.length handler)) in Hr. vm_compute in Hr. discriminate Hr.
Qed.

(** * Witnesses *)

Lemma resetHandlers_restores_initial_witness :
  repo_reachable sample_data (use listening_server [errorHandler 404 product_999_path]) /\
  currentHandlers (resetHandlers (use listening_server [errorHandler 404 product_999_path]) [])
    = handlers sample_data.
Proof.
  assert (Hr : repo_reachable sample_data (use listening_server [errorHandler 404 product_999_path])).
  { eapply rreach_step; [|apply rstep_use].
    eapply rreach_step; [apply rreach_init | apply rstep_listen]. }
  split; [exact Hr|].
  exact (proj1 (proj2 (proj2 (resetHandlers_restores_initial sample_data)) _ Hr)).
Defined.

Lemma mockError_response_witness :
  handle (use (mockError 404 listening_server product_999_path) [errorHandler 500 products_path])
    get_product_999 = Mocked (Respond 404 None 0).
Proof.
  apply mockError_response; [reflexivity | reflexivity |].
  intros h [<- | []]. reflexivity.
Defined.

Lemma mockDelayedResponse_response_witness :
  exists st dl,
    handle (use (mockDelayedResponse listening_server products_path 2000 (mockProducts sample_data))
               [errorHandler 404 product_999_path]) get_products
      = Mocked (Respond st (Some (mockProducts sample_data)) dl) /\
    req_time get_products + 2000 <= resolves_at get_products (Respond st (Some (mockProducts sample_data)) dl).
Proof.
  apply mockDelayedResponse_response; [reflexivity | reflexivity |].
  intros h [<- | []]. reflexivity.
Defined.

Lemma fixture_by_default_witness :
  In (Delivered 0 (use listening_server [errorHandler 404 product_999_path]) get_products
        (handle (use listening_server [errorHandler 404 product_999_path]) get_products))
     (run_setup_file sample_data [] [sample_test]) /\
  endpoint_matches Products get_products = true /\
  exists rt, currentHandlers (use listening_server [errorHandler 404 product_999_path])
               = rt ++ handlers sample_data /\
    ((forall h, In h rt -> handler_matches get_products h = false) ->
       handle (use listening_server [errorHandler 404 product_999_path]) get_products
       = Mocked (Respond 200 (Some (endpoint_fixture sample_data Products get_products))
                   (simulatedDelay sample_data))) /\
    (is_failed (handle (use listening_server [errorHandler 404 product_999_path]) get_products) = true ->
       exists h, In h rt /\ handler_matches get_products h = true /\
         handle (use listening_server [errorHandler 404 product_999_path]) get_products
         = Mocked (h_resolver h get_products)).
Proof.
  assert (Hin : In (Delivered 0 (use listening_server [errorHandler 404 product_999_path]) get_products
                     (handle (use listening_server [errorHandler 404 product_999_path]) get_products))
                  (run_setup_file sample_data [] [sample_test])).
  { rewrite run_setup_file_eq. simpl. auto. }
  assert (He : endpoint_matches Products get_products = true) by reflexivity.
  split; [exact Hin|]. split; [exact He|].
  exact (fixture_by_default sample_data [] [sample_test] 0 _ _ _ Products Hin He).
Defined.

Lemma no_network_while_listening_witness :
  In (Delivered 0 (use listening_server [errorHandler 404 product_999_path]) get_product_999
        (handle (use listening_server [errorHandler 404 product_999_path]) get_product_999))
     (run_setup_file sample_data [] [sample_test]) /\
  listening (use listening_server [errorHandler 404 product_999_path]) = true /\
  ((exists h, In h (currentHandlers (use listening_server [errorHandler 404 product_999_path])) /\
       handler_matches get_product_999 h = true) ->
   handle (use listening_server [errorHandler 404 product_999_path]) get_product_999 <> Network).
Proof.
  assert (Hin : In (Delivered 0 (use listening_server [errorHandler 404 product_999_path]) get_product_999
                     (handle (use listening_server [errorHandler 404 product_999_path]) get_product_999))
                  (run_setup_file sample_data [] [sample_test])).
  { rewrite run_setup_file_eq. simpl. auto. }
  split; [exact Hin|].
  exact (no_network_while_listening sample_data [] [sample_test] 0 _ _ _ Hin).
Defined.

(** * Further properties of the test runtime *)

Lemma use_use s a b : use (use s a) b = use s (b ++ a).
Proof. unfold use. simpl. rewrite app_assoc. reflexivity. Qed.

Lemma run_body_request_after pre : forall k s r post,
  In (Delivered k (use s (installed pre)) r (handle (use s (installed pre)) r))
     (snd (run_body k s (pre ++ Fetch r :: post))).
Proof.
  induction pre as [|[hs|r'] pre IH]; intros k s r post.
  - simpl app. rewrite run_body_fetch. left.
    cbn [installed].
    assert (E : use s [] = s) by (destruct s; reflexivity). rewrite E. reflexivity.
  - simpl app. simpl run_body. specialize (IH k (use s hs) r post).
    rewrite use_use in IH. exact IH.
  - simpl app. rewrite run_body_fetch. right. apply IH.
Qed.

Lemma in_run_tests_at tsb t tsa : forall k s0 e,
  currentHandlers s0 = initialHandlers s0 ->
  In e (snd (run_body (k + List.length tsb) s0 t)) ->
  In e (snd (run_tests k s0 (tsb ++ t :: tsa))).
Proof.
  induction tsb as [|t0 tsb IH]; intros k s0 e Hs Hin; simpl app.
  - rewrite run_tests_cons. right. apply in_or_app. left.
    rewrite Nat.add_0_r in Hin. exact Hin.
  - rewrite run_tests_cons, (reset_after_body k s0 t0 Hs). right. apply in_or_app.
    right. right. right. apply IH; [exact Hs|].
    replace (S k + List.length tsb) with (k + List.length (t0 :: tsb)) by (simpl; lia).
    exact Hin.
Qed.

(** Within a test case, a request is answered by the server holding the
    base handlers with all the overrides the test installed before the
    request in front of them, the latest first. *)
Theorem request_sees_earlier_overrides d env tsb pre r post tsa :
  In (Delivered (List.length tsb) (use (listen (mswServer d)) (installed pre)) r
        (handle (use (listen (mswServer d)) (installed pre)) r))
     (run_setup_file d env (tsb ++ (pre ++ Fetch r :: post) :: tsa)).
Proof.
  rewrite run_setup_file_eq. right. apply in_or_app. left.
  apply in_run_tests_at; [apply fresh_listening|].
  apply run_body_request_after.
Qed.

(** * lint-staged *)

Lemma not_in_of_existsb c l : existsb (Ascii.eqb c) l = false -> ~ In c l.
Proof.
  intros H Hin. assert (E : existsb (Ascii.eqb c) l = true).
  { apply existsb_exists. exists c. split; [exact Hin | apply Ascii.eqb_refl]. }
  congruence.
Qed.

Lemma gmatch_literal p : ~ In "*"%char p -> forall s, gmatch p s = true <-> s = p.
Proof.
  induction p as [|c p IH]; intros Hp s.
  - destruct s; simpl; split; congruence.
  - assert (Hc : Ascii.eqb c "*"%char = false).
    { apply Ascii.eqb_neq. intros ->. apply Hp. left. reflexivity. }
    assert (Hp' : ~ In "*"%char p) by (intros H; apply Hp; right; exact H).
    simpl. rewrite Hc. destruct s as [|x s]; [split; congruence|].
    rewrite andb_true_iff, Ascii.eqb_eq, (IH Hp' s). split.
    + intros [-> ->]. reflexivity.
    + intros E. inversion E. auto.
Qed.

Lemma star_match_spec rest p :
  (forall s, rest s = true <-> s = p) ->
  forall s, star_match rest s = true <-> exists x, s = x ++ p /\ ~ In "/"%char x.
Proof.
  intros Hrest s. induction s as [|c s IH]; simpl; rewrite orb_true_iff, Hrest.
  - split.
    + intros [<- | H]; [|discriminate]. exists []. split; [reflexivity | intros []].
    + intros [x [E _]]. left. destruct x; [exact E | discriminate].
  - rewrite andb_true_iff, negb_true_iff, Ascii.eqb_neq, IH. split.
    + intros [<- | [Hc [x [-> Hx]]]].
      * exists []. split; [reflexivity | intros []].
      * exists (c :: x). split; [reflexivity|]. intros [H | H]; [congruence | auto].
    + intros [[|c' x] [E Hx]]; [left; exact E|].
      right. injection E as -> ->. split.
      * intros ->. apply Hx. left. reflexivity.
      * exists x. split; [reflexivity|]. intros H. apply Hx. right. exact H.
Qed.

(** A glob [*.ext] matches exactly the names ending in [.ext] with no [/]
    before. *)
Lemma gmatch_star_ext e b :
  existsb (Ascii.eqb "*"%char) (chars e) = false ->
  gmatch ("*"%char :: "."%char :: chars e) b = true <->
  exists x, b = x ++ "."%char :: chars e /\ ~ In "/"%char x.
Proof.
  intros He.
  change (gmatch ("*"%char :: "."%char :: chars e) b)
    with (star_match (gmatch ("."%char :: chars e)) b).
  apply star_match_spec. apply gmatch_literal.
  intros [H | H]; [discriminate | exact (not_in_of_existsb _ _ He H)].
Qed.

Lemma existsb_star_exts exts b :
  forallb (fun e => negb (existsb (Ascii.eqb "*"%char) (chars e))) exts = true ->
  existsb (fun alt => gmatch alt b) (map (fun e => "*"%char :: "."%char :: chars e) exts) = true <->
  exists e x, In e exts /\ ~ In "/"%char x /\ b = x ++ "."%char :: chars e.
Proof.
  intros Hall. rewrite existsb_exists. split.
  - intros [alt [Hin Hm]]. apply in_map_iff in Hin as [e [<- He]].
    rewrite forallb_forall in Hall. specialize (Hall e He). apply negb_true_iff in Hall.
    apply (gmatch_star_ext e b Hall) in Hm as [x [Hb Hx]]. exists e, x. auto.
  - intros [e [x [He [Hx Hb]]]]. exists ("*"%char :: "."%char :: chars e).
    split; [apply (in_map (fun e => "*"%char :: "."%char :: chars e)); exact He|].
    rewrite forallb_forall in Hall. specialize (Hall e He). apply negb_true_iff in Hall.
    apply (gmatch_star_ext e b Hall). exists x. auto.
Qed.

Lemma glob_js_iff f :
  glob_matches "*.{js,jsx,ts,tsx}" f = true <->
  exists e x, In e ["js"; "jsx"; "ts"; "tsx"]%string /\ ~ In "/"%char x /\
    basename f = x ++ "."%char :: chars e.
Proof.
  change (glob_matches "*.{js,jsx,ts,tsx}" f) with
    (existsb (fun alt => gmatch alt (basename f))
       (map (fun e => "*"%char :: "."%char :: chars e) ["js"; "jsx"; "ts"; "tsx"]%string)).
  apply existsb_star_exts. reflexivity.
Qed.

Lemma glob_css_iff f :
  glob_matches "*.{css,md,json}" f = true <->
  exists e x, In e ["css"; "md"; "json"]%string /\ ~ In "/"%char x /\
    basename f = x ++ "."%char :: chars e.
Proof.
  change (glob_matches "*.{css,md,json}" f) with
    (existsb (fun alt => gmatch alt (basename f))
       (map (fun e => "*"%char :: "."%char :: chars e) ["css"; "md"; "json"]%string)).
  apply existsb_star_exts. reflexivity.
Qed.

Lemma suffixb_app z l : suffixb l (z ++ l) = true.
Proof.
  unfold suffixb. rewrite length_app.
  replace (List.length z + List.length l - List.length l) with (List.length z) by lia.
  rewrite skipn_app, skipn_all, Nat.sub_diag. simpl.
  destruct (list_eq_dec ascii_dec l l) as [_ | n]; [|contradiction].
  rewrite andb_true_r. apply Nat.leb_le. lia.
Qed.

Lemma suffix_of_app_eq x y l1 l2 :
  x ++ l1 = y ++ l2 -> suffixb l1 l2 = true \/ suffixb l2 l1 = true.
Proof.
  intros E. apply app_eq_app in E as [l [[_ H] | [_ H]]]; subst.
  - left. apply suffixb_app.
  - right. apply suffixb_app.
Qed.

(** No name ends both in a JavaScript/TypeScript extension and in one of
    [css], [md], [json]. *)
Lemma js_css_exts_disjoint e1 e2 x y :
  In e1 ["js"; "jsx"; "ts"; "tsx"]%string -> In e2 ["css"; "md"; "json"]%string ->
  x ++ "."%char :: chars e1 <> y ++ "."%char :: chars e2.
Proof.
  intros H1 H2 E. apply suffix_of_app_eq in E.
  destruct H1 as [<- | [<- | [<- | [<- | []]]]];
    destruct H2 as [<- | [<- | [<- | []]]];
    vm_compute in E; destruct E; discriminate.
Qed.

Lemma upto_slash_app l m : ~ In "/"%char l -> upto_slash (l ++ "/"%char :: m) = l.
Proof.
  induction l as [|c l IH]; intros Hl; simpl; [reflexivity|].
  assert (Hc : Ascii.eqb c "/"%char = false).
  { apply Ascii.eqb_neq. intros ->. apply Hl. left. reflexivity. }
  rewrite Hc, IH; [reflexivity|]. intros H. apply Hl. right. exact H.
Qed.

Lemma basename_app dir b : ~ In "/"%char b -> basename (dir ++ "/"%char :: b) = b.
Proof.
  intros Hb. unfold basename.
  rewrite rev_app_distr. simpl rev at 1. rewrite <- app_assoc. simpl app.
  rewrite upto_slash_app; [apply rev_involutive|].
  intros H. apply Hb. apply in_rev. exact H.
Qed.

Lemma ext_name_no_slash x e :
  ~ In "/"%char x -> existsb (Ascii.eqb "/"%char) (chars e) = false ->
  ~ In "/"%char (x ++ "."%char :: chars e).
Proof.
  intros Hx He H. apply in_app_or in H as [H | [H | H]].
  - exact (Hx H).
  - discriminate.
  - exact (not_in_of_existsb _ _ He H).
Qed.

(** The two globs of [.lintstagedrc.js] never both match a staged file:
    lint-staged runs at most one of the two command lists on any file. *)
Theorem lintstaged_globs_disjoint f : List.length (matching_tasks f) <= 1.
Proof.
  unfold matching_tasks, lintstagedrc. cbn [filter fst].
  destruct (glob_matches "*.{js,jsx,ts,tsx}" f) eqn:H1;
    destruct (glob_matches "*.{css,md,json}" f) eqn:H2; simpl; try lia.
  exfalso.
  apply glob_js_iff in H1 as [e1 [x [He1 [_ Hx]]]].
  apply glob_css_iff in H2 as [e2 [y [He2 [_ Hy]]]].
  apply (js_css_exts_disjoint e1 e2 x y He1 He2). congruence.
Qed.

(** A staged [.js], [.jsx], [.ts] or [.tsx] file, in any directory, gets
    exactly [eslint --fix] followed by [prettier --ignore-unknown --write]. *)
Theorem lintstaged_script_files dir x e :
  ~ In "/"%char x -> In e ["js"; "jsx"; "ts"; "tsx"]%string ->
  matching_tasks (dir ++ "/"%char :: x ++ "."%char :: chars e) =
  [["eslint --fix"%string; "prettier --ignore-unknown --write"%string]].
Proof.
  intros Hx He.
  assert (Hb : basename (dir ++ "/"%char :: x ++ "."%char :: chars e) = x ++ "."%char :: chars e).
  { apply basename_app, ext_name_no_slash; [exact Hx|].
    destruct He as [<- | [<- | [<- | [<- | []]]]]; reflexivity. }
  assert (H1 : glob_matches "*.{js,jsx,ts,tsx}" (dir ++ "/"%char :: x ++ "."%char :: chars e) = true).
  { apply glob_js_iff. exists e, x. auto. }
  assert (H2 : glob_matches "*.{css,md,json}" (dir ++ "/"%char :: x ++ "."%char :: chars e) = false).
  { destruct (glob_matches "*.{css,md,json}" _) eqn:E; [exfalso|reflexivity].
    apply glob_css_iff in E as [e2 [y [He2 [_ Hy]]]].
    apply (js_css_exts_disjoint e e2 x y He He2). congruence. }
  unfold matching_tasks, lintstagedrc. cbn [filter fst]. rewrite H1, H2. reflexivity.
Qed.

(** A staged [.css], [.md] or [.json] file, in any directory, gets exactly
    [prettier --write]. *)
Theorem lintstaged_style_files dir x e :
  ~ In "/"%char x -> In e ["css"; "md"; "json"]%string ->
  matching_tasks (dir ++ "/"%char :: x ++ "."%char :: chars e) = [["prettier --write"%string]].
Proof.
  intros Hx He.
  assert (Hb : basename (dir ++ "/"%char :: x ++ "."%char :: chars e) = x ++ "."%char :: chars e).
  { apply basename_app, ext_name_no_slash; [exact Hx|].
    destruct He as [<- | [<- | [<- | []]]]; reflexivity. }
  assert (H2 : glob_matches "*.{css,md,json}" (dir ++ "/"%char :: x ++ "."%char :: chars e) = true).
  { apply glob_css_iff. exists e, x. auto. }
  assert (H1 : glob_matches "*.{js,jsx,ts,tsx}" (dir ++ "/"%char :: x ++ "."%char :: chars e) = false).
  { destruct (glob_matches "*.{js,jsx,ts,tsx}" _) eqn:E; [exfalso|reflexivity].
    apply glob_js_iff in E as [e1 [y [He1 [_ Hy]]]].
    apply (js_css_exts_disjoint e1 e y x He1 He). congruence. }
  unfold matching_tasks, lintstagedrc. cbn [filter fst]. rewrite H1, H2. reflexivity.
Qed.

(** A staged file whose name ends in none of the seven configured
    extensions gets no command at all. *)
Theorem lintstaged_other_files f :
  (forall e x, In e ["js"; "jsx"; "ts"; "tsx"; "css"; "md"; "json"]%string ->
     basename f <> x ++ "."%char :: chars e) ->
  matching_tasks f = [].
Proof.
  intros Hno.
  assert (H1 : glob_matches "*.{js,jsx,ts,tsx}" f = false).
  { destruct (glob_matches "*.{js,jsx,ts,tsx}" f) eqn:E; [exfalso|reflexivity].
    apply glob_js_iff in E as [e [x [He [_ Hx]]]].
    apply (Hno e x); [|exact Hx].
    destruct He as [<- | [<- | [<- | [<- | []]]]]; simpl; auto 10. }
  assert (H2 : glob_matches "*.{css,md,json}" f = false).
  { destruct (glob_matches "*.{css,md,json}" f) eqn:E; [exfalso|reflexivity].
    apply glob_css_iff in E as [e [x [He [_ Hx]]]].
    apply (Hno e x); [|exact Hx].
    destruct He as [<- | [<- | [<- | []]]]; simpl; auto 10. }
  unfold matching_tasks, lintstagedrc. cbn [filter fst]. rewrite H1, H2. reflexivity.
Qed.

(** * Witnesses of the further properties *)

Lemma lintstaged_script_files_witness :
  ~ In "/"%char (chars "setup") /\ In "ts"%string ["js"; "jsx"; "ts"; "tsx"]%string /\
  matching_tasks (chars "/repo/src/tests" ++ "/"%char :: chars "setup" ++ "."%char :: chars "ts") =
  [["eslint --fix"%string; "prettier --ignore-unknown --write"%string]].
Proof.
  assert (Hx : ~ In "/"%char (chars "setup")) by (apply not_in_of_existsb; reflexivity).
  assert (He : In "ts"%string ["js"; "jsx"; "ts"; "tsx"]%string) by (simpl; auto).
  split; [exact Hx|]. split; [exact He|].
  exact (lintstaged_script_files (chars "/repo/src/tests") (chars "setup") "ts" Hx He).
Defined.

Lemma lintstaged_style_files_witness :
  ~ In "/"%char (chars "README") /\ In "md"%string ["css"; "md"; "json"]%string /\
  matching_tasks (chars "/repo" ++ "/"%char :: chars "README" ++ "."%char :: chars "md") =
  [["prettier --write"%string]].
Proof.
  assert (Hx : ~ In "/"%char (chars "README")) by (apply not_in_of_existsb; reflexivity).
  assert (He : In "md"%string ["css"; "md"; "json"]%string) by (simpl; auto).
  split; [exact Hx|]. split; [exact He|].
  exact (lintstaged_style_files (chars "/repo") (chars "README") "md" Hx He).
Defined.

Lemma lintstaged_other_files_witness :
  (forall e x, In e ["js"; "jsx"; "ts"; "tsx"; "css"; "md"; "json"]%string ->
     basename (chars "/repo/index.html") <> x ++ "."%char :: chars e) /\
  matching_tasks (chars "/repo/index.html") = [].
Proof.
  assert (Hno : forall e x, In e ["js"; "jsx"; "ts"; "tsx"; "css"; "md"; "json"]%string ->
                  basename (chars "/repo/index.html") <> x ++ "."%char :: chars e).
  { intros e x He E.
    assert (Hs : suffixb ("."%char :: chars e) (basename (chars "/repo/index.html")) = true)
      by (rewrite E; apply suffixb_app).
    destruct He as [<- | [<- | [<- | [<- | [<- | [<- | [<- | []]]]]]]];
      vm_compute in Hs; discriminate Hs. }
  split; [exact Hno|].
  exact (lintstaged_other_files (chars "/repo/index.html") Hno).
Defined.
